(** * A shallow embedding of IPython's Qt4 input hook and of the 2to3
    import machinery of ipython3.py

    - [InputHookQt4]: [create_inputhook_qt4], [inputhook_qt4] and
      [preprompthook_qt4] of IPython/lib/inputhookqt4.py.
    - [Auto2to3]: [Auto2to3FileFinder.predicated_path_hook], the
      [Auto2to3SourceFileLoader] methods [_2to3_cache_path],
      [_refactor_2to3], [_load_cached_2to3] and [get_data],
      [build_fixer_names] and [predicate] of ipython3.py. *)

From Stdlib Require Import List String Ascii ZArith Bool Lia.
Import ListNotations.

Module InputHookQt4.

(** Python exceptions seen by the idle callback: the interrupt, and every
    other exception (told apart by a tag). *)
Inductive exn : Type :=
| KeyboardInterrupt
| OtherException (tag : nat).

(** What a call made inside the [try] block of [inputhook_qt4] does: it
    returns (a truth value, used where the code tests the result:
    [QCoreApplication.instance()] and [stdin_ready()]), or it raises.  The
    interrupt signal is delivered to Python code at such calls. *)
Inductive outcome : Type :=
| Returns (b : bool)
| Raises (e : exn).

(** Observable effects, recorded in order (newest first). *)
Inductive event : Type :=
| EAllowCtrlC
| EIgnoreCtrlC
| EInstance
| EProcessEvents
| EStdinReady
| ETimerNew
| ETimerConnect
| ETimerStart
| EExec
| ETimerStop
| ETimerDisconnect
| ENotifierNew
| ENotifierConnect
| ENotifierDisconnect
| EPrint (msg : string)
| EPrintExc
| EClearInputhook
| ESetInputhook (hook : nat).

(** The state the two callbacks act on: the shared [got_kbdint[0]] cell,
    the input hook registered with the manager [mgr], whether CTRL-C is
    currently allowed, the number of calls made into the environment, and
    the trace of effects. *)
Record state := mkState {
  got_kbdint : bool;
  mgr_inputhook : option nat;
  ctrl_c_allowed : bool;
  ncalls : nat;
  trace : list event }.

Definition log (ev : event) (s : state) : state :=
  mkState s.(got_kbdint) s.(mgr_inputhook) s.(ctrl_c_allowed) s.(ncalls) (ev :: s.(trace)).
Definition set_got_kbdint (b : bool) (s : state) : state :=
  mkState b s.(mgr_inputhook) s.(ctrl_c_allowed) s.(ncalls) s.(trace).
Definition set_mgr_inputhook (h : option nat) (s : state) : state :=
  mkState s.(got_kbdint) h s.(ctrl_c_allowed) s.(ncalls) s.(trace).
Definition set_ctrl_c (b : bool) (s : state) : state :=
  mkState s.(got_kbdint) s.(mgr_inputhook) b s.(ncalls) s.(trace).
Definition tick (s : state) : state :=
  mkState s.(got_kbdint) s.(mgr_inputhook) s.(ctrl_c_allowed) (S s.(ncalls)) s.(trace).

(** Host primitives used by the [except] and [finally] clauses
    (IPython.lib.inputhook's [allow_CTRL_C] / [ignore_CTRL_C], [print],
    [traceback.print_exc], the manager's [clear_inputhook] and
    [set_inputhook]); they complete normally. *)
Definition allow_CTRL_C (s : state) : state := log EAllowCtrlC (set_ctrl_c true s).
Definition ignore_CTRL_C (s : state) : state := log EIgnoreCtrlC (set_ctrl_c false s).
Definition py_print (msg : string) (s : state) : state := log (EPrint msg) s.
Definition print_exc (s : state) : state := log EPrintExc s.
Definition clear_inputhook (s : state) : state := log EClearInputhook (set_mgr_inputhook None s).
Definition set_inputhook (h : nat) (s : state) : state := log (ESetInputhook h) (set_mgr_inputhook (Some h) s).

(** Results of a statement block inside [try]: normal completion, a
    [return], or an exception. *)
Inductive res (A : Type) : Type :=
| Ok (a : A)
| Return (z : Z)
| Raise (e : exn).
Arguments Ok {A} a.
Arguments Return {A} z.
Arguments Raise {A} e.

(** The block monad; [None] is a run whose [while] loop has not finished
    within the fuel given. *)
Definition M (A : Type) : Type := state -> option (res A * state).

Definition ret {A} (a : A) : M A := fun s => Some (Ok a, s).
Definition early_return {A} (z : Z) : M A := fun s => Some (Return z, s).
Definition bind {A B} (m : M A) (k : A -> M B) : M B := fun s =>
  match m s with
  | None => None
  | Some (Ok a, s') => k a s'
  | Some (Return z, s') => Some (Return z, s')
  | Some (Raise e, s') => Some (Raise e, s')
  end.

Notation "x <- m ;; k" := (bind m (fun x => k))
  (at level 61, m at next level, right associativity).

(** Python's result of calling the idle callback. *)
Inductive pyret : Type :=
| PReturn (z : Z)
| PRaise (e : exn).

Definition kbdint_notice : string :=
  String (ascii_of_nat 10) "KeyboardInterrupt - Ctrl-C again for new prompt".
Definition unregister_msg : string :=
  "Got exception from inputhook_qt4, unregistering.".

Section Callbacks.

(** [env n] is what the [n]-th call into the environment does. *)
Variable env : nat -> outcome.
(** [sys.platform == 'win32'] *)
Variable win32 : bool.
(** The identity of the [inputhook_qt4] closure. *)
Variable self : nat.

Definition call (ev : event) (eff : state -> state) : M bool := fun s =>
  match env s.(ncalls) with
  | Returns b => Some (Ok b, log ev (eff (tick s)))
  | Raises e => Some (Raise e, tick s)
  end.

Definition call_ (ev : event) : M bool := call ev (fun s => s).

(** [while not stdin_ready(): timer.start(50); app.exec_(); timer.stop()] *)
Fixpoint wait_loop (fuel : nat) : M unit :=
  match fuel with
  | O => fun _ => None
  | S fuel' =>
      ready <- call_ EStdinReady ;;
      if ready then ret tt else
      _ <- call_ ETimerStart ;;
      _ <- call_ EExec ;;
      _ <- call_ ETimerStop ;;
      wait_loop fuel'
  end.

(** The [try] block of [inputhook_qt4]. *)
Definition body (fuel : nat) : M unit :=
  _ <- call EAllowCtrlC (set_ctrl_c true) ;;
  app <- call_ EInstance ;;
  if negb app then early_return 0%Z else
  _ <- call_ EProcessEvents ;;
  ready <- call_ EStdinReady ;;
  if ready then ret tt else
  if win32 then
    _ <- call_ ETimerNew ;;
    _ <- call_ ETimerConnect ;;
    _ <- wait_loop fuel ;;
    _ <- call_ ETimerDisconnect ;;
    ret tt
  else
    _ <- call_ ENotifierNew ;;
    _ <- call_ ENotifierConnect ;;
    _ <- call_ EExec ;;
    _ <- call_ ENotifierDisconnect ;;
    ret tt.

(** [except KeyboardInterrupt:] *)
Definition except_KeyboardInterrupt (s : state) : state :=
  clear_inputhook (py_print kbdint_notice (set_got_kbdint true (ignore_CTRL_C s))).

(** bare [except:] *)
Definition except_any (s : state) : state :=
  clear_inputhook (py_print unregister_msg (print_exc (ignore_CTRL_C s))).

(** [try: body except KeyboardInterrupt: ... except: ... finally:
    allow_CTRL_C()] followed by [return 0]. *)
Definition inputhook_qt4 (fuel : nat) (s : state) : option (pyret * state) :=
  match body fuel s with
  | None => None
  | Some (Ok _, s1) => Some (PReturn 0%Z, allow_CTRL_C s1)
  | Some (Return z, s1) => Some (PReturn z, allow_CTRL_C s1)
  | Some (Raise KeyboardInterrupt, s1) =>
      Some (PReturn 0%Z, allow_CTRL_C (except_KeyboardInterrupt s1))
  | Some (Raise (OtherException _), s1) =>
      Some (PReturn 0%Z, allow_CTRL_C (except_any s1))
  end.

End Callbacks.

(** [preprompthook_qt4], for the input hook [self]. *)
Definition preprompthook_qt4 (self : nat) (s : state) : state :=
  let s := if s.(got_kbdint) then set_inputhook self s else s in
  set_got_kbdint false s.

(** Process-wide and session-scoped state read and written by
    [create_inputhook_qt4]. *)
Record session := mkSession {
  (** [QtCore.QCoreApplication.instance()] *)
  qt_instance : option nat;
  (** [QApplication] objects constructed so far (also the next one's name) *)
  apps_created : nat;
  (** [ip._inputhook_qt4], when [hasattr(ip, '_inputhook_qt4')] *)
  ip_inputhook_qt4 : option nat;
  (** [inputhook_qt4] closures created so far (also the next one's name) *)
  hooks_created : nat;
  (** the [preprompthook_qt4] closures given to
      [ip.set_hook('pre_prompt_hook', ...)], named by their input hook *)
  pre_prompt_hooks : list nat }.

(** [QtGui.QApplication([" "])] *)
Definition new_QApplication (s : session) : nat * session :=
  let a := s.(apps_created) in
  (a, mkSession (Some a) (S a) s.(ip_inputhook_qt4) s.(hooks_created)
                s.(pre_prompt_hooks)).

Definition create_inputhook_qt4 (app : option nat) (s : session)
  : (nat * nat) * session :=
  let '(app, s) :=
    match app with
    | Some a => (a, s)
    | None =>
        match s.(qt_instance) with
        | Some a => (a, s)
        | None => new_QApplication s
        end
    end in
  match s.(ip_inputhook_qt4) with
  | Some h => ((app, h), s)
  | None =>
      let h := s.(hooks_created) in
      ((app, h), mkSession s.(qt_instance) s.(apps_created) (Some h) (S h)
                           (h :: s.(pre_prompt_hooks)))
  end.

(** The whole system: the session, the state of the (single) pair of
    callbacks with the manager, and a history of what happened. *)
Inductive sysev : Type :=
| HInstall
| HIdle (tr : list event)
| HPrompt.

Record world := mkWorld {
  w_session : session;
  w_hooks : state;
  w_history : list sysev }.

(** A call of [create_inputhook_qt4]; a new closure pair starts from a
    fresh [got_kbdint = [False]]. *)
Definition install (app : option nat) (w : world) : (nat * nat) * world :=
  let '(p, sess) := create_inputhook_qt4 app w.(w_session) in
  let hs := match w.(w_session).(ip_inputhook_qt4) with
            | None => set_got_kbdint false w.(w_hooks)
            | Some _ => w.(w_hooks)
            end in
  (p, mkWorld sess hs (HInstall :: w.(w_history))).

Definition fresh_trace (s : state) : state :=
  mkState s.(got_kbdint) s.(mgr_inputhook) s.(ctrl_c_allowed) s.(ncalls) [].

(** A prompt is displayed: the registered pre-prompt hooks run. *)
Definition prompt (w : world) : world :=
  mkWorld w.(w_session)
          (fold_right preprompthook_qt4 w.(w_hooks) w.(w_session).(pre_prompt_hooks))
          (HPrompt :: w.(w_history)).

Inductive step : world -> world -> Prop :=
| step_install app w : step w (snd (install app w))
| step_idle env win32 fuel w h r hs' :
    w.(w_session).(ip_inputhook_qt4) = Some h ->
    inputhook_qt4 env win32 fuel (fresh_trace w.(w_hooks)) = Some (r, hs') ->
    step w (mkWorld w.(w_session) hs' (HIdle hs'.(trace) :: w.(w_history)))
| step_prompt w : step w (prompt w).

Definition init_world : world :=
  mkWorld (mkSession None 0 None 0 []) (mkState false None true 0 []) [].

Inductive reachable : world -> Prop :=
| reachable_init : reachable init_world
| reachable_step w w' : reachable w -> step w w' -> reachable w'.

Definition is_kbdint_notice (ev : event) : bool :=
  match ev with
  | EPrint m => String.eqb m kbdint_notice
  | _ => false
  end.

(** Whether an idle-callback run caught an interrupt (and printed the
    notice) since the last prompt. *)
Fixpoint caught_since_prompt (h : list sysev) : bool :=
  match h with
  | [] => false
  | HPrompt :: _ => false
  | HIdle tr :: h' => existsb is_kbdint_notice tr || caught_since_prompt h'
  | HInstall :: h' => caught_since_prompt h'
  end.

(** Events a pass of the win32 wait loop may record. *)
Definition wait_event (ev : event) : Prop :=
  ev = EStdinReady \/ ev = ETimerStart \/ ev = EExec \/ ev = ETimerStop.

(** The environment of the C5 counterexample: no input is ready at the
    first test, and the interrupt arrives during [app.exec_()] (call 6). *)
Definition env_interrupt_in_exec (n : nat) : outcome :=
  if Nat.eqb n 3 then Returns false
  else if Nat.eqb n 6 then Raises KeyboardInterrupt
  else Returns true.

(** An environment where input becomes ready after one pass of the wait
    loop (calls 3 and 6 are [stdin_ready()] answering no). *)
Definition env_one_wait (n : nat) : outcome :=
  if Nat.eqb n 3 || Nat.eqb n 6 then Returns false else Returns true.

(** The invariant of the system: the pending flag records whether an
    interrupt was caught since the last prompt; before [create_inputhook_qt4]
    nothing was caught and no pre-prompt hook is registered; afterwards one
    is. *)
Definition world_inv (w : world) : Prop :=
  got_kbdint w.(w_hooks) = caught_since_prompt w.(w_history) /\
  (w.(w_session).(ip_inputhook_qt4) = None ->
     caught_since_prompt w.(w_history) = false /\ w.(w_session).(pre_prompt_hooks) = []) /\
  (w.(w_session).(ip_inputhook_qt4) <> None -> w.(w_session).(pre_prompt_hooks) <> []).

(** A small reachable run: install, then an idle call interrupted at once. *)
Definition demo_installed : world := snd (install None init_world).
Definition demo_hooks : state :=
  match inputhook_qt4 (fun _ => Raises KeyboardInterrupt) false 1
          (fresh_trace demo_installed.(w_hooks)) with
  | Some (_, hs') => hs'
  | None => demo_installed.(w_hooks)
  end.
Definition demo_world : world :=
  mkWorld demo_installed.(w_session) demo_hooks
          (HIdle demo_hooks.(trace) :: demo_installed.(w_history)).

End InputHookQt4.

(** * ipython3.py *)
Module Auto2to3.

Inductive pyexc : Type :=
| FileNotFoundError (filename : string)
| NotADirectoryError (filename : string)
| IsADirectoryError (filename : string)
| PermissionError (filename : string)
(** a failure of lib2to3 (reading, decoding, parsing or encoding the source) *)
| RefactorError (msg : string)
| ImportError (msg : string) (path : string).

Inductive pyres (A : Type) : Type :=
| POk (a : A)
| PRaise (e : pyexc).
Arguments POk {A} a.
Arguments PRaise {A} e.

(** A regular file on disk: its modification time (st_mtime; only
    compared), its bytes, and whether the process may read it. *)
Record file := mkFile { st_mtime : Z; contents : list Byte.byte; readable : bool }.

(** What the operating system finds when it looks a path up. *)
Inductive entry : Type :=
| Absent                     (** no entry: ENOENT *)
| UnderFile                  (** a component of the directory part is not a
                                 directory: ENOTDIR *)
| Denied                     (** a directory on the way may not be searched:
                                 EACCES *)
| Regular (f : file)
| Directory (dir_mtime : Z).

Definition filesystem := string -> entry.

(** [os.stat(p).st_mtime] *)
Definition os_stat (fs : filesystem) (p : string) : pyres Z :=
  match fs p with
  | Absent => PRaise (FileNotFoundError p)
  | UnderFile => PRaise (NotADirectoryError p)
  | Denied => PRaise (PermissionError p)
  | Regular f => POk f.(st_mtime)
  | Directory m => POk m
  end.

(** [SourceFileLoader.get_data(p)]: [io.FileIO(p, 'r')] then [read()]. *)
Definition get_data (fs : filesystem) (p : string) : pyres (list Byte.byte) :=
  match fs p with
  | Absent => PRaise (FileNotFoundError p)
  | UnderFile => PRaise (NotADirectoryError p)
  | Denied => PRaise (PermissionError p)
  | Regular f => if f.(readable) then POk f.(contents) else PRaise (PermissionError p)
  | Directory _ => PRaise (IsADirectoryError p)
  end.

(** [Auto2to3SourceFileLoader._load_cached_2to3(path, cache)] (its debug
    logging left out). *)
Definition load_cached_2to3 (fs : filesystem) (path cache : string)
  : pyres (option (list Byte.byte)) :=
  match os_stat fs cache with
  | PRaise (FileNotFoundError _) => POk None
  | PRaise e => PRaise e
  | POk cache_mtime =>
      match os_stat fs path with
      | PRaise (FileNotFoundError _) => POk None
      | PRaise e => PRaise e
      | POk source_mtime =>
          if (cache_mtime <=? source_mtime)%Z then POk None
          else match get_data fs cache with
               | POk data => POk (Some data)
               | PRaise e => PRaise e
               end
      end
  end.

Section PathHook.

(** the type of the extra constructor arguments ([*loader_details], here
    the refactoring tool) *)
Variable details : Type.

(** [Auto2to3FileFinder(path, *loader_details)] *)
Record finder := mkFinder { finder_path : string; finder_details : details }.

(** The closure [predicated_path_hook_for_FileFinder] returned by
    [Auto2to3FileFinder.predicated_path_hook(predicate, *loader_details)];
    [isdir] is [os.path.isdir]. *)
Definition predicated_path_hook (isdir predicate : string -> bool)
  (loader_details : details) (path : string) : pyres finder :=
  if negb (isdir path) then PRaise (ImportError "only directories are supported" path)
  else if negb (predicate path) then PRaise (ImportError "predicate not satisfied" path)
  else POk (mkFinder path loader_details).

End PathHook.

(** ** [Auto2to3SourceFileLoader._2to3_cache_path], over the characters
    of the path, with POSIX [os.path] *)

Fixpoint take_while (f : ascii -> bool) (l : list ascii) : list ascii :=
  match l with
  | [] => []
  | c :: t => if f c then c :: take_while f t else []
  end.

Fixpoint drop_while (f : ascii -> bool) (l : list ascii) : list ascii :=
  match l with
  | [] => []
  | c :: t => if f c then drop_while f t else l
  end.

Definition is_slash (c : ascii) : bool := Ascii.eqb c "/"%char.
Definition not_slash (c : ascii) : bool := negb (is_slash c).

(** [posixpath.split(p)]: [i = p.rfind('/') + 1; head, tail = p[:i], p[i:]]
    (the tail is the longest suffix without a slash); then
    [if head and head != '/'*len(head): head = head.rstrip('/')]. *)
Definition path_split (p : list ascii) : list ascii * list ascii :=
  let tail := rev (take_while not_slash (rev p)) in
  let head := rev (drop_while not_slash (rev p)) in
  let head := if negb (forallb is_slash head)
              then rev (drop_while is_slash (rev head))
              else head in
  (head, tail).

(** [s.partition('.')] *)
Fixpoint partition_dot (s : list ascii) : list ascii * list ascii * list ascii :=
  match s with
  | [] => ([], [], [])
  | c :: t =>
      if Ascii.eqb c "."%char then ([], ["."%char], t)
      else let '(b, sep, a) := partition_dot t in (c :: b, sep, a)
  end.

Definition starts_with_slash (b : list ascii) : bool :=
  match b with
  | c :: _ => is_slash c
  | [] => false
  end.
Definition ends_with_slash (a : list ascii) : bool := starts_with_slash (rev a).

(** [posixpath.join(a, b)]: [if b.startswith('/'): path = b; elif not
    path or path.endswith('/'): path += b; else: path += '/' + b]. *)
Definition path_join (a b : list ascii) : list ascii :=
  if starts_with_slash b then b
  else if (match a with [] => true | _ => ends_with_slash a end) then a ++ b
  else a ++ "/"%char :: b.

Definition _2to3_cache_path (path : string) : string :=
  let '(head, tail) := path_split (list_ascii_of_string path) in
  let '(base_filename, sep, tail) := partition_dot tail in
  let tag := list_ascii_of_string "ipy2to3" in
  let filename := base_filename ++ sep ++ tag ++ sep ++ tail in
  string_of_list_ascii
    (path_join (path_join head (list_ascii_of_string "__pycache__")) filename).

(** The base name ([os.path.basename]) (the part after the last slash) of a path *)
Definition base_name (p : string) : list ascii :=
  rev (take_while not_slash (rev (list_ascii_of_string p))).

(** ** [Auto2to3SourceFileLoader.get_data] *)
Section Loader.

(** [_refactor_2to3] on the bytes of the source, followed by
    [bytearray(output, encoding)]: the bytes lib2to3 produces, or its
    failure. *)
Variable refactor_bytes : list Byte.byte -> pyres (list Byte.byte).
(** whether importlib's [SourceFileLoader.set_data] manages to write a
    path (it swallows the OS errors of a failed write) *)
Variable writable : string -> bool.
(** the clock: the modification time of a file written now *)
Variable now : Z.

(** [self._refactor_2to3(path)]: [_read_python_source] opens and reads
    the source, with the errors of [get_data]. *)
Definition refactor_2to3 (fs : filesystem) (path : string) : pyres (list Byte.byte) :=
  match get_data fs path with
  | POk src => refactor_bytes src
  | PRaise e => PRaise e
  end.

(** [self.set_data(cache, data)] *)
Definition set_data (fs : filesystem) (p : string) (data : list Byte.byte) : filesystem :=
  if writable p
  then fun q => if String.eqb q p then Regular (mkFile now data true) else fs q
  else fs.

(** [get_data(path)] of the loader whose [original_path] is given: the
    result and the file system afterwards. *)
Definition Auto2to3SourceFileLoader_get_data (original_path : string)
  (fs : filesystem) (path : string) : pyres (list Byte.byte) * filesystem :=
  if String.eqb path original_path then
    let cache := _2to3_cache_path path in
    match load_cached_2to3 fs path cache with
    | PRaise e => (PRaise e, fs)
    | POk (Some data) => (POk data, fs)
    | POk None =>
        match refactor_2to3 fs path with
        | PRaise e => (PRaise e, fs)
        | POk data => (POk data, set_data fs cache data)
        end
    end
  else (get_data fs path, fs).

End Loader.

(** ** [build_fixer_names] *)

(** [names.remove(x)] (called when [x] is in [names]): drops the first
    occurrence. *)
Fixpoint list_remove (x : string) (l : list string) : list string :=
  match l with
  | [] => []
  | y :: t => if String.eqb x y then t else y :: list_remove x t
  end.

Definition excluded_warning (fixer_name : string) : string :=
  String.append "Excluded fixer " (String.append fixer_name " not found").

(** One pass of the [for] loop: the fixer names and the warnings issued. *)
Definition exclude_step (acc : list string * list string) (fixer_name : string)
  : list string * list string :=
  let '(fixer_names, warns) := acc in
  if negb (existsb (String.eqb fixer_name) fixer_names)
  then (fixer_names, warns ++ [excluded_warning fixer_name])
  else (list_remove fixer_name fixer_names, warns).

(** [build_fixer_names(exclude_fixers)], given the list
    [refactor.get_fixers_from_package('lib2to3.fixes')]; returns the fixer
    names and the warnings issued, in order. *)
Definition build_fixer_names (fixers_from_package : list string)
  (exclude_fixers : option (list string)) : list string * list string :=
  let fixer_names := fixers_from_package in
  match exclude_fixers with
  | Some ((_ :: _) as ex) => fold_left exclude_step ex (fixer_names, [])
  | _ => (fixer_names, [])
  end.

(** ** [predicate] of the module, given [os.path.abspath] and [this_dir] *)
Definition predicate (abspath : string -> string) (this_dir : string)
  (path : string) : bool :=
  let ap := abspath path in
  String.eqb ap this_dir || String.prefix (String.append this_dir "/") ap.

(** A readable source file [m.py] (modified at time 3) and what is found
    at its cache path *)
Definition demo_source : string := "/src/IPython/core/m.py".
Definition demo_fs (cache : entry) : filesystem :=
  fun q => if String.eqb q demo_source then Regular (mkFile 3 [Byte.x61] true)
           else if String.eqb q (_2to3_cache_path demo_source) then cache
           else Absent.

End Auto2to3.

(** * Properties of the Qt4 input hook *)
Module InputHookQt4Facts.
Import InputHookQt4.

(** Walks through the calls of a run, one environment answer at a time. *)
Ltac step_env :=
  repeat (cbn in *;
    match goal with
    | H : context [match ?env ?n with Returns _ => _ | Raises _ => _ end] |- _ =>
        destruct (env n) as [?|?] eqn:?
    | H : context [wait_loop ?e ?f ?s] |- _ =>
        lazymatch type of H with
        | wait_loop _ _ _ = _ => fail
        | _ => destruct (wait_loop e f s) as [[[[]|?|?] ?]|] eqn:?
        end
    | H : context [if ?b then _ else _] |- _ => destruct b eqn:?
    end);
  try discriminate.

Ltac wait_done new :=
  split; [intros ? ?; discriminate|];
  split; [reflexivity|]; split; [reflexivity|];
  exists new; split; [reflexivity|];
  repeat (apply Forall_cons; [unfold wait_event; auto|]); apply Forall_nil.

Lemma wait_loop_effects env fuel s r s' :
  wait_loop env fuel s = Some (r, s') ->
  (forall z, r <> Return z) /\
  got_kbdint s' = got_kbdint s /\
  mgr_inputhook s' = mgr_inputhook s /\
  exists new, trace s' = new ++ trace s /\ Forall wait_event new.
Proof.
  revert s r s'.
  induction fuel as [|fuel IH]; intros s r s' H; [discriminate|].
  unfold wait_loop in H; fold wait_loop in H.
  unfold bind, call_, call, ret in H.
  destruct (env (ncalls s)) as [b|e] eqn:E1; cbn in H.
  2: { injection H as <- <-. wait_done (@nil event). }
  destruct b; cbn in H.
  { injection H as <- <-. wait_done [EStdinReady]. }
  destruct (env (S (ncalls s))) as [b2|e2] eqn:E2; cbn in H.
  2: { injection H as <- <-. wait_done [EStdinReady]. }
  destruct (env (S (S (ncalls s)))) as [b3|e3] eqn:E3; cbn in H.
  2: { injection H as <- <-. wait_done [ETimerStart; EStdinReady]. }
  destruct (env (S (S (S (ncalls s))))) as [b4|e4] eqn:E4; cbn in H.
  2: { injection H as <- <-. wait_done [EExec; ETimerStart; EStdinReady]. }
  destruct (IH _ _ _ H) as (Hr & Hk & Hm & new & Ht & Hf).
  cbn in Hk, Hm, Ht.
  split; [exact Hr|]. split; [exact Hk|]. split; [exact Hm|].
  exists (new ++ [ETimerStop; EExec; ETimerStart; EStdinReady]).
  split.
  - rewrite Ht, <- app_assoc. reflexivity.
  - apply Forall_app. split; [exact Hf|].
    repeat (apply Forall_cons; [unfold wait_event; auto|]); apply Forall_nil.
Qed.

Lemma wait_events_no_notice new :
  Forall wait_event new -> existsb is_kbdint_notice new = false.
Proof.
  induction 1 as [|ev l Hev _ IH]; [reflexivity|].
  cbn. rewrite IH.
  destruct Hev as [ -> | [ -> | [ -> | -> ]]]; reflexivity.
Qed.

(** Projections of the state updates, as rewrite rules (unfolding the
    updates would copy the state once per field). *)
Section Projections.
Variables (s : state) (ev : event) (b : bool).
Lemma got_kbdint_log : got_kbdint (log ev s) = got_kbdint s. Proof. reflexivity. Qed.
Lemma got_kbdint_tick : got_kbdint (tick s) = got_kbdint s. Proof. reflexivity. Qed.
Lemma got_kbdint_set_ctrl_c : got_kbdint (set_ctrl_c b s) = got_kbdint s. Proof. reflexivity. Qed.
Lemma mgr_inputhook_log : mgr_inputhook (log ev s) = mgr_inputhook s. Proof. reflexivity. Qed.
Lemma mgr_inputhook_tick : mgr_inputhook (tick s) = mgr_inputhook s. Proof. reflexivity. Qed.
Lemma mgr_inputhook_set_ctrl_c : mgr_inputhook (set_ctrl_c b s) = mgr_inputhook s. Proof. reflexivity. Qed.
Lemma trace_log : trace (log ev s) = ev :: trace s. Proof. reflexivity. Qed.
Lemma trace_tick : trace (tick s) = trace s. Proof. reflexivity. Qed.
Lemma trace_set_ctrl_c : trace (set_ctrl_c b s) = trace s. Proof. reflexivity. Qed.
End Projections.

Create Rewrite HintDb state_proj.
Hint Rewrite got_kbdint_log got_kbdint_tick got_kbdint_set_ctrl_c
  mgr_inputhook_log mgr_inputhook_tick mgr_inputhook_set_ctrl_c
  trace_log trace_tick trace_set_ctrl_c : state_proj.

Ltac unfold_state := autorewrite with state_proj in *.

Lemma body_effects env win32 fuel s r s1 :
  body env win32 fuel s = Some (r, s1) ->
  (forall z, r = Return z -> z = 0%Z) /\
  got_kbdint s1 = got_kbdint s /\
  mgr_inputhook s1 = mgr_inputhook s /\
  existsb is_kbdint_notice (trace s1) = existsb is_kbdint_notice (trace s).
Proof.
  intros H.
  unfold body, bind, call_, call, ret, early_return in H.
  step_env.
  all: try match goal with
       | W : wait_loop _ _ _ = Some _ |- _ =>
           destruct (wait_loop_effects _ _ _ _ _ W) as (Wr & Wk & Wm & wn & Wt & Wf)
       end.
  all: try (injection H as <- <-); unfold_state.
  all: try (exfalso; eapply Wr; reflexivity).
  all: repeat split; try (intros ? Hz; injection Hz as <-; reflexivity);
       try (intros ? Hz; discriminate Hz); auto.
  all: rewrite ?Wt; cbn; rewrite ?existsb_app, ?wait_events_no_notice by exact Wf; auto.
Qed.

Lemma wait_events_not_connect ev new :
  Forall wait_event new -> In ev new ->
  ev <> ETimerConnect /\ ev <> ENotifierConnect /\ ev <> ENotifierDisconnect.
Proof.
  intros Hf Hin. rewrite Forall_forall in Hf.
  destruct (Hf ev Hin) as [ -> | [ -> | [ -> | -> ]]];
    repeat split; discriminate.
Qed.

Lemma body_completion_disconnects env win32 fuel s r s1 :
  trace s = [] ->
  body env win32 fuel s = Some (r, s1) ->
  (forall e, r <> Raise e) ->
  (In ETimerConnect (trace s1) -> In ETimerDisconnect (trace s1)) /\
  (In ENotifierConnect (trace s1) -> In ENotifierDisconnect (trace s1)).
Proof.
  intros Ht0 H Hr.
  unfold body, bind, call_, call, ret, early_return in H.
  step_env.
  all: try match goal with
       | W : wait_loop _ _ _ = Some _ |- _ =>
           destruct (wait_loop_effects _ _ _ _ _ W) as (Wr & Wk & Wm & wn & Wt & Wf)
       end.
  all: try (injection H as <- <-); unfold_state.
  all: try (exfalso; eapply Hr; reflexivity).
  all: try (exfalso; eapply Wr; reflexivity).
  all: rewrite ?Wt, ?Ht0; cbn.
  all: split; intros Hin; auto.
  all: repeat (destruct Hin as [Hin|Hin]; [discriminate Hin|]).
  all: try (destruct Hin).
  all: apply in_app_or in Hin; destruct Hin as [Hin|Hin];
       [destruct (wait_events_not_connect _ _ Wf Hin) as (? & ? & ?); congruence|].
  all: repeat (destruct Hin as [Hin|Hin]; [discriminate Hin|]); destruct Hin.
Qed.

(** C6: every run of [inputhook_qt4], whichever branch it takes (no
    application, normal completion, interrupt, other exception), re-enables
    CTRL-C as its last effect and returns 0. *)
Theorem inputhook_qt4_returns_zero_ctrl_c_allowed env win32 fuel s r s' :
  inputhook_qt4 env win32 fuel s = Some (r, s') ->
  r = PReturn 0%Z /\ ctrl_c_allowed s' = true /\
  exists tr, trace s' = EAllowCtrlC :: tr.
Proof.
  unfold inputhook_qt4.
  destruct (body env win32 fuel s) as [[[a|z|[|n]] s1]|] eqn:E;
    intros H; try discriminate; injection H as <- <-.
  all: split; [|split; [reflexivity|eexists; reflexivity]].
  all: try reflexivity.
  apply body_effects in E as [Hz _].
  rewrite (Hz z eq_refl). reflexivity.
Qed.

Lemma inputhook_qt4_returns_zero_ctrl_c_allowed_witness :
  inputhook_qt4 (fun _ => Returns true) false 1 (mkState false (Some 0) false 0 [])
    = Some (PReturn 0%Z, mkState false (Some 0) true 4
              [EAllowCtrlC; EStdinReady; EProcessEvents; EInstance; EAllowCtrlC]) /\
  (PReturn 0%Z = PReturn 0%Z /\ true = true /\
   exists tr, [EAllowCtrlC; EStdinReady; EProcessEvents; EInstance; EAllowCtrlC]
              = EAllowCtrlC :: tr).
Proof.
  split; [reflexivity|].
  exact (inputhook_qt4_returns_zero_ctrl_c_allowed (fun _ => Returns true) false 1
           (mkState false (Some 0) false 0 []) (PReturn 0%Z)
           (mkState false (Some 0) true 4
              [EAllowCtrlC; EStdinReady; EProcessEvents; EInstance; EAllowCtrlC])
           eq_refl).
Defined.

(** C1: when the [try] block raises any exception other than the
    interrupt, [inputhook_qt4] catches it: it ignores CTRL-C, prints the
    traceback and a diagnostic, clears the manager's input hook, re-enables
    CTRL-C and returns 0; nothing propagates. *)
Theorem inputhook_qt4_other_exception_contained env win32 fuel s n s1 :
  body env win32 fuel s = Some (Raise (OtherException n), s1) ->
  exists s',
    inputhook_qt4 env win32 fuel s = Some (PReturn 0%Z, s') /\
    trace s' = [EAllowCtrlC; EClearInputhook; EPrint unregister_msg; EPrintExc;
                EIgnoreCtrlC] ++ trace s1 /\
    mgr_inputhook s' = None /\
    got_kbdint s' = got_kbdint s1.
Proof.
  intros H.
  exists (allow_CTRL_C (except_any s1)).
  unfold inputhook_qt4. rewrite H.
  repeat split.
Qed.

Lemma inputhook_qt4_other_exception_contained_witness :
  body (fun _ => Raises (OtherException 1)) false 1 (mkState false (Some 0) true 0 [])
    = Some (Raise (OtherException 1), mkState false (Some 0) true 1 []) /\
  exists s',
    inputhook_qt4 (fun _ => Raises (OtherException 1)) false 1
      (mkState false (Some 0) true 0 []) = Some (PReturn 0%Z, s') /\
    trace s' = [EAllowCtrlC; EClearInputhook; EPrint unregister_msg; EPrintExc;
                EIgnoreCtrlC] ++ [] /\
    mgr_inputhook s' = None /\ got_kbdint s' = false.
Proof.
  split; [reflexivity|].
  apply (inputhook_qt4_other_exception_contained (fun _ => Raises (OtherException 1))
           false 1 (mkState false (Some 0) true 0 []) 1 (mkState false (Some 0) true 1 [])).
  reflexivity.
Defined.

(** C2: when the interrupt reaches the [try] block, the same call of
    [inputhook_qt4] sets the pending flag, clears the manager's input hook,
    prints the one-line notice, and returns 0 without raising. *)
Theorem inputhook_qt4_interrupt_suspends_hook env win32 fuel s s1 :
  body env win32 fuel s = Some (Raise KeyboardInterrupt, s1) ->
  exists s',
    inputhook_qt4 env win32 fuel s = Some (PReturn 0%Z, s') /\
    got_kbdint s' = true /\
    mgr_inputhook s' = None /\
    trace s' = [EAllowCtrlC; EClearInputhook; EPrint kbdint_notice; EIgnoreCtrlC]
               ++ trace s1.
Proof.
  intros H.
  exists (allow_CTRL_C (except_KeyboardInterrupt s1)).
  unfold inputhook_qt4. rewrite H.
  repeat split.
Qed.

Lemma inputhook_qt4_interrupt_suspends_hook_witness :
  body (fun _ => Raises KeyboardInterrupt) true 1 (mkState false (Some 0) true 0 [])
    = Some (Raise KeyboardInterrupt, mkState false (Some 0) true 1 []) /\
  exists s',
    inputhook_qt4 (fun _ => Raises KeyboardInterrupt) true 1
      (mkState false (Some 0) true 0 []) = Some (PReturn 0%Z, s') /\
    got_kbdint s' = true /\ mgr_inputhook s' = None /\
    trace s' = [EAllowCtrlC; EClearInputhook; EPrint kbdint_notice; EIgnoreCtrlC] ++ [].
Proof.
  split; [reflexivity|].
  apply (inputhook_qt4_interrupt_suspends_hook (fun _ => Raises KeyboardInterrupt)
           true 1 (mkState false (Some 0) true 0 []) (mkState false (Some 0) true 1 [])).
  reflexivity.
Defined.

(** C5 (as stated, refuted): off win32, an interrupt raised by
    [app.exec_()] leaves the socket notifier connected: the disconnect
    call is skipped on the interrupt path. *)
Lemma inputhook_qt4_interrupt_skips_disconnect :
  ~ (forall env win32 fuel s r s',
       trace s = [] ->
       inputhook_qt4 env win32 fuel s = Some (r, s') ->
       (In ETimerConnect (trace s') -> In ETimerDisconnect (trace s')) /\
       (In ENotifierConnect (trace s') -> In ENotifierDisconnect (trace s'))).
Proof.
  intros H.
  destruct (H env_interrupt_in_exec false 1 (mkState false (Some 0) true 0 [])
              (PReturn 0%Z)
              (mkState true None true 7
                 [EAllowCtrlC; EClearInputhook; EPrint kbdint_notice; EIgnoreCtrlC;
                  ENotifierConnect; ENotifierNew; EStdinReady; EProcessEvents;
                  EInstance; EAllowCtrlC])
              eq_refl eq_refl) as [_ Hn].
  cbn in Hn.
  assert (Hd : EAllowCtrlC = ENotifierDisconnect \/ EClearInputhook = ENotifierDisconnect \/
               EPrint kbdint_notice = ENotifierDisconnect \/
               EIgnoreCtrlC = ENotifierDisconnect \/
               ENotifierConnect = ENotifierDisconnect \/ ENotifierNew = ENotifierDisconnect \/
               EStdinReady = ENotifierDisconnect \/ EProcessEvents = ENotifierDisconnect \/
               EInstance = ENotifierDisconnect \/ EAllowCtrlC = ENotifierDisconnect \/ False).
  { apply Hn. do 4 right. left. reflexivity. }
  repeat (destruct Hd as [Hd|Hd]; [discriminate Hd|]). exact Hd.
Qed.

(** C5 (amended): when the [try] block of [inputhook_qt4] completes
    without raising (normally or through the no-application return), a
    connected timer or socket notifier has been disconnected before the
    callback returns 0. *)
Theorem inputhook_qt4_completion_disconnects env win32 fuel s r s1 :
  trace s = [] ->
  body env win32 fuel s = Some (r, s1) ->
  (forall e, r <> Raise e) ->
  exists s',
    inputhook_qt4 env win32 fuel s = Some (PReturn 0%Z, s') /\
    (In ETimerConnect (trace s') -> In ETimerDisconnect (trace s')) /\
    (In ENotifierConnect (trace s') -> In ENotifierDisconnect (trace s')).
Proof.
  intros Ht H Hr.
  destruct (body_completion_disconnects _ _ _ _ _ _ Ht H Hr) as [Ht1 Hn1].
  exists (allow_CTRL_C s1).
  unfold inputhook_qt4. rewrite H.
  destruct r as [a|z|e]; [| |exfalso; exact (Hr e eq_refl)].
  all: split.
  2,4: cbn; split; intros [Hin|Hin]; try discriminate Hin; right; auto.
  - reflexivity.
  - apply body_effects in H as [Hz _]. rewrite (Hz z eq_refl). reflexivity.
Qed.

Lemma inputhook_qt4_completion_disconnects_witness :
  [] = @nil event /\
  body env_one_wait true 2 (mkState false (Some 0) true 0 [])
    = Some (Ok tt, mkState false (Some 0) true 12
              [ETimerDisconnect; EStdinReady; ETimerStop; EExec; ETimerStart;
               EStdinReady; ETimerConnect; ETimerNew; EStdinReady; EProcessEvents;
               EInstance; EAllowCtrlC]) /\
  (forall e, @Ok unit tt <> Raise e) /\
  exists s',
    inputhook_qt4 env_one_wait true 2 (mkState false (Some 0) true 0 [])
      = Some (PReturn 0%Z, s') /\
    (In ETimerConnect (trace s') -> In ETimerDisconnect (trace s')) /\
    (In ENotifierConnect (trace s') -> In ENotifierDisconnect (trace s')).
Proof.
  assert (Hr : forall e, @Ok unit tt <> Raise e) by discriminate.
  split; [reflexivity|]. split; [reflexivity|]. split; [exact Hr|].
  apply (inputhook_qt4_completion_disconnects env_one_wait true 2
           (mkState false (Some 0) true 0 []) (Ok tt)
           (mkState false (Some 0) true 12
              [ETimerDisconnect; EStdinReady; ETimerStop; EExec; ETimerStart;
               EStdinReady; ETimerConnect; ETimerNew; EStdinReady; EProcessEvents;
               EInstance; EAllowCtrlC])); [reflexivity|reflexivity|exact Hr].
Defined.

(** C3: [preprompthook_qt4] re-registers the input hook exactly when the
    pending flag is set, always leaves the flag cleared, changes nothing
    when the flag is already clear, and a second call is a no-op. *)
Theorem preprompthook_qt4_restores_once self s :
  preprompthook_qt4 self s =
    (if got_kbdint s then set_got_kbdint false (set_inputhook self s) else s) /\
  got_kbdint (preprompthook_qt4 self s) = false /\
  mgr_inputhook (preprompthook_qt4 self s) =
    (if got_kbdint s then Some self else mgr_inputhook s) /\
  preprompthook_qt4 self (preprompthook_qt4 self s) = preprompthook_qt4 self s.
Proof.
  destruct s as [[] m c n tr]; repeat split.
Qed.

(** C4 (as stated, refuted): the application in the returned pair is the
    one passed in, so two calls with different applications return
    different pairs. *)
Lemma create_inputhook_qt4_app_follows_argument :
  ~ (forall app1 app2 s,
       fst (create_inputhook_qt4 app2 (snd (create_inputhook_qt4 app1 s)))
       = fst (create_inputhook_qt4 app1 s)).
Proof.
  intros H.
  specialize (H (Some 1) (Some 2) (mkSession None 0 None 0 [])).
  cbn in H. congruence.
Qed.

(** C4 (amended): a second [create_inputhook_qt4] on the same session
    returns the input hook of the first and registers nothing new.  The
    application in each returned pair is the one passed in, or else the
    process-wide instance (found or created); so called with the same [app]
    argument it returns the same pair and leaves the state unchanged, and
    called with a different application it returns that application with
    the same hook. *)
Theorem create_inputhook_qt4_idempotent app app' s :
  let '(p1, s1) := create_inputhook_qt4 app s in
  (match app with
   | Some a => fst p1 = a
   | None => qt_instance s1 = Some (fst p1)
   end) /\
  create_inputhook_qt4 app s1 = (p1, s1) /\
  (match app' with
   | Some a' => fst (fst (create_inputhook_qt4 app' s1)) = a'
   | None => qt_instance (snd (create_inputhook_qt4 app' s1))
             = Some (fst (fst (create_inputhook_qt4 app' s1)))
   end) /\
  snd (fst (create_inputhook_qt4 app' s1)) = snd p1 /\
  ip_inputhook_qt4 (snd (create_inputhook_qt4 app' s1)) = ip_inputhook_qt4 s1 /\
  hooks_created (snd (create_inputhook_qt4 app' s1)) = hooks_created s1 /\
  pre_prompt_hooks (snd (create_inputhook_qt4 app' s1)) = pre_prompt_hooks s1.
Proof.
  destruct s as [qi na ih nh pp].
  destruct app as [a|], app' as [a'|], qi as [q|], ih as [h|];
    cbn; repeat split.
Qed.

(** C8: without an [app] argument, [create_inputhook_qt4] reuses the
    process-wide application when there is one, and otherwise constructs
    exactly one, which becomes the process-wide instance. *)
Theorem create_inputhook_qt4_app_once s :
  let '((a, _), s') := create_inputhook_qt4 None s in
  match qt_instance s with
  | Some a0 => a = a0 /\ apps_created s' = apps_created s /\ qt_instance s' = Some a0
  | None => a = apps_created s /\ apps_created s' = S (apps_created s) /\
            qt_instance s' = Some a
  end.
Proof.
  destruct s as [[q|] na [h|] nh pp]; cbn; repeat split.
Qed.

Lemma inputhook_qt4_flag env win32 fuel s r s' :
  trace s = [] ->
  inputhook_qt4 env win32 fuel s = Some (r, s') ->
  got_kbdint s' = got_kbdint s || existsb is_kbdint_notice (trace s').
Proof.
  intros Ht H.
  unfold inputhook_qt4 in H.
  destruct (body env win32 fuel s) as [[r1 s1]|] eqn:E; [|discriminate].
  destruct (body_effects _ _ _ _ _ _ E) as (_ & Hk & _ & Hn).
  rewrite Ht in Hn. cbn in Hn.
  destruct r1 as [a|z|[|n]]; injection H as <- <-; cbn.
  - rewrite Hk, Hn, orb_false_r. reflexivity.
  - rewrite Hk, Hn, orb_false_r. reflexivity.
  - rewrite ?String.eqb_refl, ?orb_true_r. reflexivity.
  - rewrite Hk, Hn, orb_false_r. reflexivity.
Qed.

Lemma preprompt_fold_clears hs h hooks :
  got_kbdint (fold_right preprompthook_qt4 hs (h :: hooks)) = false.
Proof.
  cbn. destruct (fold_right preprompthook_qt4 hs hooks) as [[] m c n tr]; reflexivity.
Qed.

Lemma create_inputhook_qt4_hooks app s :
  ip_inputhook_qt4 (snd (create_inputhook_qt4 app s)) <> None /\
  (ip_inputhook_qt4 s = None -> pre_prompt_hooks (snd (create_inputhook_qt4 app s)) <> []) /\
  (ip_inputhook_qt4 s <> None ->
     pre_prompt_hooks (snd (create_inputhook_qt4 app s)) = pre_prompt_hooks s).
Proof.
  destruct s as [qi na ih nh pp].
  destruct app as [a|], qi as [q|], ih as [h|]; cbn;
    repeat split; try discriminate; intros Hc; try discriminate; congruence.
Qed.

Lemma world_inv_init : world_inv init_world.
Proof.
  repeat split; cbn; congruence.
Qed.

Lemma world_inv_step w w' : world_inv w -> step w w' -> world_inv w'.
Proof.
  intros (Hf & Hnone & Hsome) Hs.
  destruct Hs as [app w | env win32 fuel w h r hs' Hh Hrun | w].
  - unfold install.
    destruct (create_inputhook_qt4_hooks app (w_session w)) as (Hi & Hp1 & Hp2).
    destruct (create_inputhook_qt4 app (w_session w)) as [p sess] eqn:E.
    cbn in Hi, Hp1, Hp2 |- *.
    unfold world_inv; cbn.
    destruct (ip_inputhook_qt4 (w_session w)) as [h|] eqn:Eh.
    + split; [exact Hf|]. split; [intros Hn; contradiction|].
      intros _. rewrite Hp2 by discriminate. apply Hsome. discriminate.
    + destruct (Hnone eq_refl) as [Hc _].
      split; [cbn; rewrite Hc; reflexivity|].
      split; [intros Hn; contradiction|].
      intros _. apply Hp1. reflexivity.
  - unfold world_inv; cbn.
    pose proof (inputhook_qt4_flag _ _ _ (fresh_trace (w_hooks w)) _ _ eq_refl Hrun) as Hk.
    cbn in Hk.
    split.
    + rewrite Hk, Hf, orb_comm. reflexivity.
    + split; [intros Hn; congruence|]. exact Hsome.
  - unfold world_inv, prompt; cbn.
    split; [|split; [intros Hn; split; [reflexivity|]; apply Hnone, Hn|exact Hsome]].
    destruct (ip_inputhook_qt4 (w_session w)) as [h|] eqn:Eh.
    + destruct (pre_prompt_hooks (w_session w)) as [|h' hooks] eqn:Ep.
      * exfalso. apply (Hsome ltac:(discriminate)). reflexivity.
      * apply preprompt_fold_clears.
    + destruct (Hnone eq_refl) as [Hc Hp]. rewrite Hp. cbn. rewrite Hf. exact Hc.
Qed.

(** C7: in every reachable state the pending flag is set exactly when an
    idle-callback run has caught an interrupt since the last prompt was
    displayed (the prompt's [preprompthook_qt4] clears it; nothing else
    sets it). *)
Theorem got_kbdint_iff_caught_since_prompt w :
  reachable w -> got_kbdint (w_hooks w) = caught_since_prompt (w_history w).
Proof.
  intros Hr.
  assert (Hi : world_inv w).
  { induction Hr as [|w w' _ IH Hs].
    - exact world_inv_init.
    - exact (world_inv_step w w' IH Hs). }
  exact (proj1 Hi).
Qed.

Lemma got_kbdint_iff_caught_since_prompt_witness :
  reachable demo_world /\
  got_kbdint (w_hooks demo_world) = caught_since_prompt (w_history demo_world).
Proof.
  assert (Hr : reachable demo_world).
  { apply (reachable_step demo_installed).
    - apply (reachable_step init_world); [exact reachable_init|].
      apply step_install.
    - apply (step_idle (fun _ => Raises KeyboardInterrupt) false 1 demo_installed 0
               (PReturn 0%Z) demo_hooks); reflexivity. }
  split; [exact Hr|].
  exact (got_kbdint_iff_caught_since_prompt demo_world Hr).
Defined.

End InputHookQt4Facts.

(** * Properties of the 2to3 import machinery *)
Module Auto2to3Facts.
Import Auto2to3.




(** C10: the path hook raises [ImportError] for [path] exactly when
    [path] is not a directory or the predicate is false on it, and
    otherwise returns the finder built for [path]. *)
Theorem predicated_path_hook_raises_iff details isdir predicate d path :
  ((exists msg, predicated_path_hook details isdir predicate d path
                = PRaise (ImportError msg path)) <->
   (isdir path = false \/ predicate path = false)) /\
  match predicated_path_hook details isdir predicate d path with
  | PRaise (ImportError _ p) => p = path /\ (isdir path = false \/ predicate path = false)
  | PRaise _ => False
  | POk f => f = mkFinder details path d /\ isdir path = true /\ predicate path = true
  end.
Proof.
  unfold predicated_path_hook.
  destruct (isdir path), (predicate path); cbn.
  all: split; [split|].
  all: try (intros [msg H]; discriminate H).
  all: try (intros [H|H]; discriminate H).
  all: try (intros _; eexists; reflexivity).
  all: auto.
Qed.

End Auto2to3Facts.

(** * Further properties of the Qt4 input hook *)
Module InputHookQt4Extra.
Import InputHookQt4 InputHookQt4Facts.

(** When [QCoreApplication.instance()] answers [None], [inputhook_qt4]
    returns 0 without processing events or entering the event loop, and
    leaves the pending flag and the registered hook as they were. *)
Theorem inputhook_qt4_no_app env win32 fuel s b :
  env (ncalls s) = Returns b ->
  env (S (ncalls s)) = Returns false ->
  exists s',
    inputhook_qt4 env win32 fuel s = Some (PReturn 0%Z, s') /\
    trace s' = [EAllowCtrlC; EInstance; EAllowCtrlC] ++ trace s /\
    got_kbdint s' = got_kbdint s /\ mgr_inputhook s' = mgr_inputhook s.
Proof.
  intros H0 H1.
  unfold inputhook_qt4, body, bind, call_, call, early_return.
  rewrite H0. cbn. rewrite H1. cbn.
  eexists. repeat split.
Qed.

Lemma inputhook_qt4_no_app_witness :
  (fun _ => Returns false) 0 = Returns false /\
  (fun _ => Returns false) 1 = Returns false /\
  exists s',
    inputhook_qt4 (fun _ => Returns false) true 1 (mkState false (Some 3) true 0 [])
      = Some (PReturn 0%Z, s') /\
    trace s' = [EAllowCtrlC; EInstance; EAllowCtrlC] ++ [] /\
    got_kbdint s' = false /\ mgr_inputhook s' = Some 3.
Proof.
  split; [reflexivity|]. split; [reflexivity|].
  exact (inputhook_qt4_no_app (fun _ => Returns false) true 1
           (mkState false (Some 3) true 0 []) false eq_refl eq_refl).
Defined.



(** A run of [inputhook_qt4] whose [try] block raises nothing leaves the
    registered input hook and the pending flag unchanged. *)
Theorem inputhook_qt4_keeps_hook_without_exception env win32 fuel s r s1 :
  body env win32 fuel s = Some (r, s1) ->
  (forall e, r <> Raise e) ->
  exists s',
    inputhook_qt4 env win32 fuel s = Some (PReturn 0%Z, s') /\
    mgr_inputhook s' = mgr_inputhook s /\ got_kbdint s' = got_kbdint s.
Proof.
  intros H Hr.
  destruct (body_effects _ _ _ _ _ _ H) as (Hz & Hk & Hm & _).
  exists (allow_CTRL_C s1).
  unfold inputhook_qt4. rewrite H.
  destruct r as [a|z|e]; [| |exfalso; exact (Hr e eq_refl)].
  - split; [reflexivity|]. split; assumption.
  - rewrite (Hz z eq_refl). split; [reflexivity|]. split; assumption.
Qed.

Lemma inputhook_qt4_keeps_hook_without_exception_witness :
  body (fun _ => Returns true) false 1 (mkState false (Some 3) true 0 [])
    = Some (Ok tt, mkState false (Some 3) true 4
                     [EStdinReady; EProcessEvents; EInstance; EAllowCtrlC]) /\
  (forall e, @Ok unit tt <> Raise e) /\
  exists s',
    inputhook_qt4 (fun _ => Returns true) false 1 (mkState false (Some 3) true 0 [])
      = Some (PReturn 0%Z, s') /\
    mgr_inputhook s' = Some 3 /\ got_kbdint s' = false.
Proof.
  assert (Hr : forall e, @Ok unit tt <> Raise e) by discriminate.
  split; [reflexivity|]. split; [exact Hr|].
  exact (inputhook_qt4_keeps_hook_without_exception (fun _ => Returns true) false 1
           (mkState false (Some 3) true 0 []) (Ok tt)
           (mkState false (Some 3) true 4
              [EStdinReady; EProcessEvents; EInstance; EAllowCtrlC]) eq_refl Hr).
Defined.

(** An interrupted idle call followed by the next prompt re-registers the
    input hook and clears the pending flag. *)
Theorem interrupt_then_prompt_restores_hook env win32 fuel self s s1 :
  body env win32 fuel s = Some (Raise KeyboardInterrupt, s1) ->
  exists s',
    inputhook_qt4 env win32 fuel s = Some (PReturn 0%Z, s') /\
    mgr_inputhook s' = None /\
    mgr_inputhook (preprompthook_qt4 self s') = Some self /\
    got_kbdint (preprompthook_qt4 self s') = false.
Proof.
  intros H.
  exists (allow_CTRL_C (except_KeyboardInterrupt s1)).
  unfold inputhook_qt4. rewrite H. repeat split.
Qed.

Lemma interrupt_then_prompt_restores_hook_witness :
  body (fun _ => Raises KeyboardInterrupt) false 1 (mkState false (Some 3) true 0 [])
    = Some (Raise KeyboardInterrupt, mkState false (Some 3) true 1 []) /\
  exists s',
    inputhook_qt4 (fun _ => Raises KeyboardInterrupt) false 1
      (mkState false (Some 3) true 0 []) = Some (PReturn 0%Z, s') /\
    mgr_inputhook s' = None /\
    mgr_inputhook (preprompthook_qt4 3 s') = Some 3 /\
    got_kbdint (preprompthook_qt4 3 s') = false.
Proof.
  split; [reflexivity|].
  exact (interrupt_then_prompt_restores_hook (fun _ => Raises KeyboardInterrupt) false 1 3
           (mkState false (Some 3) true 0 []) (mkState false (Some 3) true 1 []) eq_refl).
Defined.

(** After an unexpected exception (with no interrupt pending), the hook
    stays unregistered through the next prompt: [preprompthook_qt4] does
    not restore it. *)
Theorem error_then_prompt_keeps_hook_cleared env win32 fuel self s n s1 :
  got_kbdint s = false ->
  body env win32 fuel s = Some (Raise (OtherException n), s1) ->
  exists s',
    inputhook_qt4 env win32 fuel s = Some (PReturn 0%Z, s') /\
    mgr_inputhook (preprompthook_qt4 self s') = None /\
    got_kbdint (preprompthook_qt4 self s') = false.
Proof.
  intros Hg H.
  destruct (body_effects _ _ _ _ _ _ H) as (_ & Hk & _ & _).
  exists (allow_CTRL_C (except_any s1)).
  unfold inputhook_qt4. rewrite H.
  split; [reflexivity|].
  unfold preprompthook_qt4. cbn. rewrite Hk, Hg. split; reflexivity.
Qed.

Lemma error_then_prompt_keeps_hook_cleared_witness :
  got_kbdint (mkState false (Some 3) true 0 []) = false /\
  body (fun _ => Raises (OtherException 0)) true 1 (mkState false (Some 3) true 0 [])
    = Some (Raise (OtherException 0), mkState false (Some 3) true 1 []) /\
  exists s',
    inputhook_qt4 (fun _ => Raises (OtherException 0)) true 1
      (mkState false (Some 3) true 0 []) = Some (PReturn 0%Z, s') /\
    mgr_inputhook (preprompthook_qt4 3 s') = None /\
    got_kbdint (preprompthook_qt4 3 s') = false.
Proof.
  split; [reflexivity|]. split; [reflexivity|].
  exact (error_then_prompt_keeps_hook_cleared (fun _ => Raises (OtherException 0)) true 1 3
           (mkState false (Some 3) true 0 []) 0 (mkState false (Some 3) true 1 [])
           eq_refl eq_refl).
Defined.

(** With an explicit [app], [create_inputhook_qt4] returns that
    application and constructs none. *)
Theorem create_inputhook_qt4_given_app a s :
  fst (fst (create_inputhook_qt4 (Some a) s)) = a /\
  qt_instance (snd (create_inputhook_qt4 (Some a) s)) = qt_instance s /\
  apps_created (snd (create_inputhook_qt4 (Some a) s)) = apps_created s.
Proof.
  destruct s as [qi na [h|] nh pp]; cbn; repeat split.
Qed.

(** In every reachable state, the pre-prompt hooks registered are exactly
    one for the session's input hook once it exists, and none before:
    repeated installs never register a second pre-prompt hook. *)
Theorem reachable_single_preprompt_hook w :
  reachable w ->
  pre_prompt_hooks (w_session w) =
    match ip_inputhook_qt4 (w_session w) with
    | Some h => [h]
    | None => []
    end.
Proof.
  induction 1 as [|w w' _ IH Hs]; [reflexivity|].
  destruct Hs as [app w | env win32 fuel w h r hs' Hh Hrun | w]; cbn; auto.
  unfold install.
  destruct (w_session w) as [qi na ih nh pp]; cbn in IH |- *.
  destruct app as [a|], qi as [q|], ih as [h|]; cbn in IH |- *; subst; reflexivity.
Qed.

Lemma reachable_single_preprompt_hook_witness :
  reachable demo_world /\
  pre_prompt_hooks (w_session demo_world) =
    match ip_inputhook_qt4 (w_session demo_world) with
    | Some h => [h]
    | None => []
    end.
Proof.
  assert (Hr : reachable demo_world).
  { apply (reachable_step demo_installed).
    - apply (reachable_step init_world); [exact reachable_init|].
      apply step_install.
    - apply (step_idle (fun _ => Raises KeyboardInterrupt) false 1 demo_installed 0
               (PReturn 0%Z) demo_hooks); reflexivity. }
  split; [exact Hr|].
  exact (reachable_single_preprompt_hook demo_world Hr).
Defined.

End InputHookQt4Extra.

(** * Further properties of the 2to3 loader, [build_fixer_names] and
    [predicate] *)
Module Auto2to3Extra.
Import Auto2to3.

(** ** Paths *)

Lemma take_while_app_all f l1 l2 :
  forallb f l1 = true -> take_while f (l1 ++ l2) = l1 ++ take_while f l2.
Proof.
  induction l1 as [|c t IH]; cbn; [reflexivity|].
  intros H. apply andb_prop in H as [-> H]. rewrite IH by exact H. reflexivity.
Qed.

Lemma drop_while_app_all f l1 l2 :
  forallb f l1 = true -> drop_while f (l1 ++ l2) = drop_while f l2.
Proof.
  induction l1 as [|c t IH]; cbn; [reflexivity|].
  intros H. apply andb_prop in H as [-> H]. exact (IH H).
Qed.

Lemma take_while_all f l : forallb f (take_while f l) = true.
Proof.
  induction l as [|c t IH]; cbn; [reflexivity|].
  destruct (f c) eqn:E; cbn; [rewrite E, IH|]; reflexivity.
Qed.

Lemma forallb_rev {A} (f : A -> bool) l : forallb f (rev l) = forallb f l.
Proof.
  induction l as [|a l IH]; cbn; [reflexivity|].
  rewrite forallb_app, IH; cbn. rewrite andb_true_r, andb_comm. reflexivity.
Qed.

Lemma partition_dot_shape s :
  exists b sep a, partition_dot s = (b, sep, a) /\ b ++ sep ++ a = s /\
                  (sep = [] \/ sep = ["."%char]).
Proof.
  induction s as [|c t IH]; cbn.
  - exists [], [], []. auto.
  - destruct (Ascii.eqb c "."%char) eqn:E.
    + apply Ascii.eqb_eq in E; subst. exists [], ["."%char], t. auto.
    + destruct IH as (b & sep & a & -> & <- & Hs).
      exists (c :: b), sep, a. auto.
Qed.

Lemma not_slash_start l :
  forallb not_slash l = true -> l <> [] -> starts_with_slash l = false.
Proof.
  destruct l as [|c t]; [intros _ H; contradiction H; reflexivity|].
  cbn. intros H _. apply andb_prop in H as [H _].
  unfold not_slash in H. destruct (is_slash c); [discriminate|reflexivity].
Qed.

Lemma join_slash a b :
  starts_with_slash b = false -> a <> [] -> ends_with_slash a = false ->
  path_join a b = a ++ "/"%char :: b.
Proof.
  intros Hb Ha He. unfold path_join. rewrite Hb.
  destruct a as [|c t]; [contradiction Ha; reflexivity|]. rewrite He. reflexivity.
Qed.

Lemma join_pycache head :
  exists j, path_join head (list_ascii_of_string "__pycache__")
            = j ++ list_ascii_of_string "__pycache__".
Proof.
  unfold path_join. cbn [list_ascii_of_string starts_with_slash].
  change (is_slash "_"%char) with false. cbn iota.
  destruct (match head with [] => true | _ => ends_with_slash head end).
  - exists head. reflexivity.
  - exists (head ++ ["/"%char]). rewrite <- app_assoc. reflexivity.
Qed.

Lemma ends_pycache j :
  ends_with_slash (j ++ list_ascii_of_string "__pycache__") = false.
Proof. unfold ends_with_slash. rewrite rev_app_distr. reflexivity. Qed.

Lemma base_of_join a b :
  forallb not_slash b = true ->
  rev (take_while not_slash (rev (a ++ "/"%char :: b))) = b.
Proof.
  intros Hb. rewrite rev_app_distr. cbn [rev]. rewrite <- app_assoc.
  rewrite take_while_app_all by (rewrite forallb_rev; exact Hb).
  cbn. rewrite app_nil_r, rev_involutive. reflexivity.
Qed.

(** The base name of the cache path: the source's base name split at its
    first dot, with the tag put after the dot (and again before it). *)
Lemma cache_path_base p :
  exists b sep a,
    partition_dot (base_name p) = (b, sep, a) /\
    base_name p = b ++ sep ++ a /\ (sep = [] \/ sep = ["."%char]) /\
    base_name (_2to3_cache_path p)
    = b ++ sep ++ list_ascii_of_string "ipy2to3" ++ sep ++ a.
Proof.
  unfold _2to3_cache_path.
  destruct (path_split (list_ascii_of_string p)) as [head tail] eqn:Es.
  assert (Ht : tail = base_name p)
    by (unfold path_split in Es; injection Es as _ <-; reflexivity).
  destruct (partition_dot_shape tail) as (b & sep & a & Ep & Eba & Hsep).
  rewrite Ep. exists b, sep, a.
  split; [congruence|]. split; [congruence|]. split; [exact Hsep|].
  assert (Hall : forallb not_slash tail = true)
    by (subst tail; unfold base_name; rewrite forallb_rev; apply take_while_all).
  rewrite <- Eba in Hall. rewrite !forallb_app in Hall.
  apply andb_prop in Hall as [Hb Hall]. apply andb_prop in Hall as [Hs Ha].
  assert (Hf : forallb not_slash
                 (b ++ sep ++ list_ascii_of_string "ipy2to3" ++ sep ++ a) = true).
  { rewrite !forallb_app, Hb, Hs, Ha. reflexivity. }
  destruct (join_pycache head) as [j ->].
  unfold base_name. rewrite list_ascii_of_string_of_list_ascii.
  rewrite join_slash.
  - apply base_of_join. exact Hf.
  - apply not_slash_start; [exact Hf|].
    destruct b; [destruct sep; discriminate|discriminate].
  - destruct j; discriminate.
  - apply ends_pycache.
Qed.

Lemma cache_path_ne p : _2to3_cache_path p <> p.
Proof.
  intros H.
  destruct (cache_path_base p) as (b & sep & a & _ & Hp & _ & Hc).
  rewrite H, Hp in Hc. apply (f_equal (@List.length ascii)) in Hc.
  rewrite !length_app in Hc. cbn in Hc. lia.
Qed.

Lemma path_split_dir d x t :
  not_slash x = true -> forallb not_slash t = true ->
  path_split (d ++ x :: "/"%char :: t) = (d ++ [x], t).
Proof.
  intros Hx Ht.
  assert (Hx' : is_slash x = false)
    by (unfold not_slash in Hx; destruct (is_slash x); [discriminate|reflexivity]).
  assert (Er : rev (d ++ x :: "/"%char :: t) = rev t ++ "/"%char :: x :: rev d).
  { replace (d ++ x :: "/"%char :: t) with ((d ++ [x]) ++ "/"%char :: t)
      by (rewrite <- app_assoc; reflexivity).
    rewrite rev_app_distr, rev_unit. cbn [rev]. rewrite <- app_assoc. reflexivity. }
  unfold path_split. rewrite Er.
  rewrite take_while_app_all, drop_while_app_all by (rewrite forallb_rev; exact Ht).
  cbn [take_while drop_while].
  change (not_slash "/"%char) with false. cbn iota.
  rewrite app_nil_r, rev_involutive.
  cbn [rev]. rewrite rev_involutive, !forallb_app. cbn [forallb].
  rewrite Hx', ?andb_false_l, ?andb_false_r, ?andb_false_l. cbn [negb].
  cbn [drop_while]. change (is_slash "/"%char) with true. cbn iota.
  rewrite Hx'. cbn [rev]. rewrite !rev_involutive. reflexivity.
Qed.

Lemma partition_dot_nodot name ext :
  forallb (fun c => negb (Ascii.eqb c "."%char)) name = true ->
  partition_dot (name ++ "."%char :: ext) = (name, ["."%char], ext) /\
  partition_dot name = (name, [], []).
Proof.
  induction name as [|c t IH]; cbn; [auto|].
  intros H. apply andb_prop in H as [Hc H].
  destruct (Ascii.eqb c "."%char); [discriminate|].
  destruct (IH H) as [-> ->]. auto.
Qed.

Lemma partition_dot_nosep s b a :
  partition_dot s = (b, [], a) -> existsb (fun c => Ascii.eqb c "."%char) s = false.
Proof.
  revert b a. induction s as [|c t IH]; intros b a; cbn; [reflexivity|].
  destruct (Ascii.eqb c "."%char); [discriminate|].
  destruct (partition_dot t) as [[b' sep'] a'].
  intros H. injection H as _ -> ->. cbn. exact (IH b' a eq_refl).
Qed.

Ltac nonempty :=
  let Hnil := fresh in
  intro Hnil; apply (f_equal (@List.length ascii)) in Hnil;
  rewrite ?length_app in Hnil; cbn in Hnil; lia.

(** The cache file of a source is never the source itself: its base name
    is the source's base name with the 7 characters of the [ipy2to3] tag
    added, and one more dot when the source's base name has a dot. *)
Theorem _2to3_cache_path_base_name p :
  _2to3_cache_path p <> p /\
  List.length (base_name (_2to3_cache_path p))
  = List.length (base_name p) + 7
    + (if existsb (fun c => Ascii.eqb c "."%char) (base_name p) then 1 else 0).
Proof.
  split; [apply cache_path_ne|].
  destruct (cache_path_base p) as (b & sep & a & Ep & Hp & [-> | ->] & Hc);
    rewrite Hc.
  - rewrite (partition_dot_nosep _ _ _ Ep), Hp, !length_app. cbn. lia.
  - rewrite Hp, existsb_app. cbn [existsb]. rewrite orb_true_r.
    rewrite !length_app. cbn. lia.
Qed.

Lemma _2to3_cache_path_base_name_witness :
  _2to3_cache_path "/usr/lib/a.b.py"%string <> "/usr/lib/a.b.py"%string /\
  List.length (base_name (_2to3_cache_path "/usr/lib/a.b.py"%string)) = 14.
Proof.
  destruct (_2to3_cache_path_base_name "/usr/lib/a.b.py"%string) as [H1 H2].
  split; [exact H1|]. rewrite H2. reflexivity.
Defined.

(** For a source [d/name.ext] ([d] not ending in a slash, [name] without
    dot or slash, [ext] without slash) the cache file is
    [d/__pycache__/name.ipy2to3.ext]; for a source [d/name] without any dot
    it is [d/__pycache__/nameipy2to3], with no dot added. *)
Theorem _2to3_cache_path_layout d x name ext :
  not_slash x = true -> forallb not_slash name = true ->
  forallb not_slash ext = true ->
  forallb (fun c => negb (Ascii.eqb c "."%char)) name = true ->
  _2to3_cache_path
    (string_of_list_ascii (d ++ x :: "/"%char :: name ++ "."%char :: ext))
  = string_of_list_ascii
      (d ++ x :: list_ascii_of_string "/__pycache__/" ++ name
         ++ list_ascii_of_string ".ipy2to3." ++ ext) /\
  _2to3_cache_path (string_of_list_ascii (d ++ x :: "/"%char :: name))
  = string_of_list_ascii
      (d ++ x :: list_ascii_of_string "/__pycache__/" ++ name
         ++ list_ascii_of_string "ipy2to3").
Proof.
  intros Hx Hn He Hd.
  destruct (partition_dot_nodot name ext Hd) as [P1 P2].
  assert (Hx' : is_slash x = false)
    by (unfold not_slash in Hx; destruct (is_slash x); [discriminate|reflexivity]).
  assert (Hj : path_join (d ++ [x]) (list_ascii_of_string "__pycache__")
               = (d ++ [x; "/"%char]) ++ list_ascii_of_string "__pycache__").
  { rewrite join_slash; [rewrite <- !app_assoc; reflexivity|reflexivity|nonempty|].
    unfold ends_with_slash. rewrite rev_unit. exact Hx'. }
  split; unfold _2to3_cache_path;
    rewrite list_ascii_of_string_of_list_ascii, path_split_dir;
    try exact Hx; try rewrite P1; try rewrite P2; rewrite ?Hj; f_equal.
  - rewrite join_slash; [| |nonempty|apply ends_pycache].
    + rewrite <- !app_assoc. reflexivity.
    + apply not_slash_start; [|destruct name; discriminate].
      rewrite ?forallb_app; cbn [forallb]; rewrite ?Hn, ?He; reflexivity.
  - rewrite ?forallb_app; cbn [forallb]; rewrite ?Hn, ?He; reflexivity.
  - rewrite join_slash; [| |nonempty|apply ends_pycache].
    + rewrite <- !app_assoc. reflexivity.
    + apply not_slash_start; [|nonempty].
      rewrite ?forallb_app; cbn [forallb]; rewrite ?Hn; reflexivity.
  - exact Hn.
Qed.

Lemma _2to3_cache_path_layout_witness :
  _2to3_cache_path "/usr/lib/a.b.py"%string = "/usr/lib/__pycache__/a.ipy2to3.b.py"%string /\
  _2to3_cache_path "/usr/lib/ab"%string = "/usr/lib/__pycache__/abipy2to3"%string.
Proof.
  split.
  - apply (_2to3_cache_path_layout (list_ascii_of_string "/usr/li") "b"%char
             ["a"%char] (list_ascii_of_string "b.py")); reflexivity.
  - apply (_2to3_cache_path_layout (list_ascii_of_string "/usr/li") "b"%char
             ["a"%char; "b"%char] []); reflexivity.
Defined.

(** ** The loader's [get_data] *)

Section GetData.
Variable refactor_bytes : list Byte.byte -> pyres (list Byte.byte).
Variable writable : string -> bool.
Variable now : Z.

Let loader_get_data := Auto2to3SourceFileLoader_get_data refactor_bytes writable now.

(** When the cache is a readable regular file strictly newer than the
    source, the loader returns the cached bytes and writes nothing. *)
Theorem get_data_cache_hit orig fs cf sm :
  fs (_2to3_cache_path orig) = Regular cf -> readable cf = true ->
  os_stat fs orig = POk sm -> (sm < st_mtime cf)%Z ->
  loader_get_data orig fs orig = (POk (contents cf), fs).
Proof.
  intros Hc Hr Hp Hlt.
  unfold loader_get_data, Auto2to3SourceFileLoader_get_data, load_cached_2to3.
  rewrite String.eqb_refl. cbv zeta.
  set (c := _2to3_cache_path orig) in *. clearbody c.
  assert (Hs : os_stat fs c = POk (st_mtime cf))
    by (unfold os_stat; rewrite Hc; reflexivity).
  assert (Hg : get_data fs c = POk (contents cf))
    by (unfold get_data; rewrite Hc, Hr; reflexivity).
  rewrite Hs, Hp. destruct (Z.leb_spec (st_mtime cf) sm); [lia|].
  rewrite Hg. reflexivity.
Qed.

(** With a writable cache and a clock past the source's modification
    time, once a call on the source path has returned bytes, a second call
    on the file system it leaves behind returns the same bytes and writes
    nothing more: the conversion is reused from the cache. *)
Theorem get_data_second_call_cached orig fs sf :
  fs orig = Regular sf -> writable (_2to3_cache_path orig) = true ->
  (st_mtime sf < now)%Z ->
  let '(r1, fs1) := loader_get_data orig fs orig in
  forall data, r1 = POk data -> loader_get_data orig fs1 orig = (r1, fs1).
Proof.
  intros Hp Hw Hnow.
  assert (Hq : String.eqb orig (_2to3_cache_path orig) = false)
    by (apply String.eqb_neq; intros H; apply (cache_path_ne orig); congruence).
  unfold loader_get_data, Auto2to3SourceFileLoader_get_data.
  rewrite String.eqb_refl. cbv zeta.
  set (c := _2to3_cache_path orig) in *. clearbody c.
  destruct (load_cached_2to3 fs orig c) as [[d|]|e] eqn:L.
  - intros data _. rewrite L. reflexivity.
  - destruct (refactor_2to3 refactor_bytes fs orig) as [d|e] eqn:R;
      [|intros data H; discriminate H].
    intros data _.
    unfold set_data. rewrite Hw.
    unfold load_cached_2to3, os_stat, get_data.
    rewrite String.eqb_refl, Hq, Hp. cbn [st_mtime readable contents].
    destruct (Z.leb_spec now (st_mtime sf)); [lia|]. reflexivity.
  - intros data H. discriminate H.
Qed.

(** A missing source makes the loader raise [FileNotFoundError] for it,
    unless stat-ing the cache path already fails otherwise, whose error then
    propagates; nothing is written. *)
Theorem get_data_missing_source orig fs :
  fs orig = Absent ->
  loader_get_data orig fs orig =
    (PRaise (match os_stat fs (_2to3_cache_path orig) with
             | PRaise (FileNotFoundError _) | POk _ => FileNotFoundError orig
             | PRaise e => e
             end), fs).
Proof.
  intros Hp.
  unfold loader_get_data, Auto2to3SourceFileLoader_get_data.
  rewrite String.eqb_refl. cbv zeta.
  set (c := _2to3_cache_path orig) in *. clearbody c.
  unfold load_cached_2to3, refactor_2to3, os_stat, get_data.
  rewrite Hp. destruct (fs c); reflexivity.
Qed.



End GetData.

Lemma get_data_cache_hit_witness :
  Auto2to3SourceFileLoader_get_data (fun b => POk b) (fun _ => true) 10 demo_source
    (demo_fs (Regular (mkFile 5 [Byte.x62] true))) demo_source
  = (POk [Byte.x62], demo_fs (Regular (mkFile 5 [Byte.x62] true))).
Proof.
  apply (get_data_cache_hit (fun b => POk b) (fun _ => true) 10 demo_source
           (demo_fs (Regular (mkFile 5 [Byte.x62] true)))
           (mkFile 5 [Byte.x62] true) 3); reflexivity.
Defined.

Lemma get_data_second_call_cached_witness :
  let '(r1, fs1) := Auto2to3SourceFileLoader_get_data (fun b => POk (rev b))
                      (fun _ => true) 10 demo_source (demo_fs Absent) demo_source in
  forall data, r1 = POk data ->
  Auto2to3SourceFileLoader_get_data (fun b => POk (rev b)) (fun _ => true) 10
    demo_source fs1 demo_source = (r1, fs1).
Proof.
  apply (get_data_second_call_cached (fun b => POk (rev b)) (fun _ => true) 10
           demo_source (demo_fs Absent) (mkFile 3 [Byte.x61] true)); reflexivity.
Defined.

Lemma get_data_missing_source_witness :
  Auto2to3SourceFileLoader_get_data (fun b => POk b) (fun _ => true) 10 demo_source
    (fun q => if String.eqb q (_2to3_cache_path demo_source)
              then Directory 5 else Absent) demo_source
  = (PRaise (FileNotFoundError demo_source),
     fun q => if String.eqb q (_2to3_cache_path demo_source)
              then Directory 5 else Absent).
Proof.
  rewrite (get_data_missing_source (fun b => POk b) (fun _ => true) 10 demo_source);
    reflexivity.
Defined.



(** ** [build_fixer_names] *)

Lemma list_remove_in_sub n x l : In x (list_remove n l) -> In x l.
Proof.
  induction l as [|y t IH]; cbn; [auto|].
  destruct (String.eqb n y); cbn; intuition.
Qed.

Lemma list_remove_in_nodup n x l :
  NoDup l -> (In x (list_remove n l) <-> In x l /\ x <> n).
Proof.
  induction l as [|y t IH]; cbn; intros Hnd; [tauto|].
  inversion Hnd as [|? ? Hy Ht]; subst.
  destruct (String.eqb n y) eqn:E.
  - apply String.eqb_eq in E; subst y. split.
    + intros Hx. split; [auto|]. intros ->. contradiction.
    + intros [[->|Hx] Hne]; [contradiction Hne; reflexivity|exact Hx].
  - apply String.eqb_neq in E. cbn. rewrite IH by exact Ht. split.
    + intros [->|[Hx Hne]]; [split; [auto|congruence]|auto].
    + intros [[->|Hx] Hne]; auto.
Qed.

Lemma list_remove_nodup n l : NoDup l -> NoDup (list_remove n l).
Proof.
  induction l as [|y t IH]; cbn; intros Hnd; [constructor|].
  inversion Hnd as [|? ? Hy Ht]; subst.
  destruct (String.eqb n y); [exact Ht|].
  constructor; [|exact (IH Ht)].
  intros H. apply Hy. exact (list_remove_in_sub _ _ _ H).
Qed.

Lemma existsb_list_remove m n l :
  m <> n -> existsb (String.eqb m) (list_remove n l) = existsb (String.eqb m) l.
Proof.
  intros Hmn. induction l as [|y t IH]; cbn; [reflexivity|].
  destruct (String.eqb n y) eqn:E; cbn.
  - apply String.eqb_eq in E; subst y.
    rewrite (proj2 (String.eqb_neq _ _) Hmn). reflexivity.
  - rewrite IH. reflexivity.
Qed.

Lemma existsb_eqb_in n l : existsb (String.eqb n) l = true <-> In n l.
Proof.
  rewrite existsb_exists. split.
  - intros (y & Hy & E). apply String.eqb_eq in E. subst. exact Hy.
  - intros H. exists n. split; [exact H|apply String.eqb_refl].
Qed.

Lemma fold_exclude_names ex names warns :
  NoDup names ->
  NoDup (fst (fold_left exclude_step ex (names, warns))) /\
  (forall x, In x (fst (fold_left exclude_step ex (names, warns))) <->
             In x names /\ ~ In x ex).
Proof.
  revert names warns. induction ex as [|n ex IH]; intros names warns Hnd; cbn.
  - split; [exact Hnd|]. intros x. tauto.
  - destruct (existsb (String.eqb n) names) eqn:E; cbn.
    + destruct (IH (list_remove n names) warns (list_remove_nodup n names Hnd))
        as [H1 H2].
      split; [exact H1|]. intros x. rewrite H2, list_remove_in_nodup by exact Hnd.
      split.
      * intros [[Hx Hne] Hnin]. split; [exact Hx|].
        intros [Heq|Hx']; [subst; apply Hne; reflexivity|contradiction].
      * intros [Hx Hnin]. split; [split; [exact Hx|]|].
        -- intros ->. apply Hnin. left. reflexivity.
        -- intros Hx'. apply Hnin. right. exact Hx'.
    + destruct (IH names (warns ++ [excluded_warning n]) Hnd) as [H1 H2].
      split; [exact H1|]. intros x. rewrite H2.
      assert (Hn : ~ In n names)
        by (rewrite <- existsb_eqb_in, E; discriminate).
      split.
      * intros [Hx Hnin]. split; [exact Hx|].
        intros [Heq|Hx']; [subst; contradiction|contradiction].
      * intros [Hx Hnin]. split; [exact Hx|].
        intros Hx'. apply Hnin. right. exact Hx'.
Qed.

Lemma fold_exclude_warns ex names warns :
  NoDup ex ->
  snd (fold_left exclude_step ex (names, warns)) =
  warns ++ map excluded_warning
              (filter (fun n => negb (existsb (String.eqb n) names)) ex).
Proof.
  revert names warns. induction ex as [|n ex IH]; intros names warns Hnd; cbn.
  - rewrite app_nil_r. reflexivity.
  - inversion Hnd as [|? ? Hn Hex]; subst.
    destruct (existsb (String.eqb n) names) eqn:E; cbn.
    + rewrite IH by exact Hex. f_equal. f_equal. apply filter_ext_in.
      intros m Hm. rewrite existsb_list_remove; [reflexivity|].
      intros ->. contradiction.
    + rewrite IH by exact Hex. rewrite <- app_assoc. reflexivity.
Qed.

(** When the package's fixer names are distinct, so are the names
    [build_fixer_names] returns, and they are exactly the package's names
    not listed in [exclude_fixers] ([None] excludes nothing). *)
Theorem build_fixer_names_members all exclude :
  NoDup all ->
  NoDup (fst (build_fixer_names all exclude)) /\
  (forall x, In x (fst (build_fixer_names all exclude)) <->
             In x all /\ ~ In x (match exclude with Some l => l | None => [] end)).
Proof.
  intros Hnd. destruct exclude as [[|e l]|]; unfold build_fixer_names.
  - split; [exact Hnd|]. intros x. cbn. tauto.
  - apply fold_exclude_names. exact Hnd.
  - split; [exact Hnd|]. intros x. cbn. tauto.
Qed.

(** When the excluded names are distinct, one warning is printed for each
    excluded name the package does not have, in the order of
    [exclude_fixers], and no other; with [None] or [[]] nothing is
    printed. *)
Theorem build_fixer_names_warnings all exclude :
  NoDup (match exclude with Some l => l | None => [] end) ->
  snd (build_fixer_names all exclude) =
  map excluded_warning
    (filter (fun n => negb (existsb (String.eqb n) all))
       (match exclude with Some l => l | None => [] end)).
Proof.
  intros Hnd. destruct exclude as [[|e l]|]; unfold build_fixer_names.
  - reflexivity.
  - exact (fold_exclude_warns (e :: l) all [] Hnd).
  - reflexivity.
Qed.

Lemma build_fixer_names_members_witness :
  NoDup ["fix_apply"; "fix_print"; "fix_unicode"]%string /\
  NoDup (fst (build_fixer_names ["fix_apply"; "fix_print"; "fix_unicode"]%string
                (Some ["fix_print"; "fix_next"]%string))).
Proof.
  assert (H : NoDup ["fix_apply"; "fix_print"; "fix_unicode"]%string)
    by (repeat constructor; simpl; intuition discriminate).
  split; [exact H|].
  exact (proj1 (build_fixer_names_members _ (Some ["fix_print"; "fix_next"]%string) H)).
Defined.

Lemma build_fixer_names_warnings_witness :
  snd (build_fixer_names ["fix_apply"; "fix_print"]%string
         (Some ["fix_print"; "fix_next"]%string))
  = [excluded_warning "fix_next"].
Proof.
  rewrite (build_fixer_names_warnings _ (Some ["fix_print"; "fix_next"]%string)).
  - reflexivity.
  - repeat constructor; simpl; intuition discriminate.
Defined.

(** ** [predicate] *)

Lemma append_assoc_str a b c :
  String.append (String.append a b) c = String.append a (String.append b c).
Proof. induction a as [|x a IH]; cbn; [reflexivity|]. rewrite IH. reflexivity. Qed.

Lemma prefix_iff s1 s2 :
  String.prefix s1 s2 = true <-> exists r, s2 = String.append s1 r.
Proof.
  revert s2. induction s1 as [|a s1 IH]; intros s2; cbn.
  - split; [intros _; exists s2; reflexivity|]. intros _. destruct s2; reflexivity.
  - destruct s2 as [|b s2].
    + split; [discriminate|intros [r H]; discriminate].
    + cbn [prefix]. destruct (ascii_dec a b) as [->|Hne].
      * rewrite IH. split; intros [r H]; exists r; [congruence|].
        injection H as ->. reflexivity.
      * split; [discriminate|]. intros [r H]. injection H as ->. contradiction.
Qed.

Lemma append_cancel_l d r1 r2 :
  String.append d r1 = String.append d r2 -> r1 = r2.
Proof. induction d as [|x d IH]; cbn; [auto|]. intros H. injection H. exact IH. Qed.

Lemma append_string_neq d c r : String.append d (String c r) <> d.
Proof.
  induction d as [|x d IH]; cbn; [discriminate|].
  intros H. injection H. exact IH.
Qed.

(** [predicate] holds of a path exactly when its absolute path is
    [this_dir] or lies below [this_dir/]; a sibling whose absolute path
    merely starts with [this_dir] followed by a character other than a
    slash is refused. *)
Theorem predicate_this_dir_only abspath this_dir path :
  (predicate abspath this_dir path = true <->
   abspath path = this_dir \/
   exists rest, abspath path = String.append this_dir (String "/" rest)) /\
  (forall c rest, c <> "/"%char ->
   abspath path = String.append this_dir (String c rest) ->
   predicate abspath this_dir path = false).
Proof.
  assert (Hiff : predicate abspath this_dir path = true <->
                 abspath path = this_dir \/
                 exists rest, abspath path = String.append this_dir (String "/" rest)).
  { unfold predicate. rewrite orb_true_iff, String.eqb_eq, prefix_iff.
    split; (intros [H|[r H]]; [left; exact H|right; exists r]);
      rewrite H, ?append_assoc_str; reflexivity. }
  split; [exact Hiff|].
  intros c rest Hc Hap. apply Bool.not_true_is_false. intros E.
  apply Hiff in E as [E|[r E]]; rewrite Hap in E.
  - contradiction (append_string_neq _ _ _ E).
  - apply append_cancel_l in E. injection E as ->. contradiction Hc. reflexivity.
Qed.

Lemma predicate_this_dir_only_witness :
  predicate (fun p => p) "/src/IPython"%string "/src/IPythonX"%string = false.
Proof.
  apply (proj2 (predicate_this_dir_only (fun p => p) "/src/IPython"%string
                  "/src/IPythonX"%string) "X"%char ""%string).
  - discriminate.
  - reflexivity.
Defined.

End Auto2to3Extra.
